(** * Room-list filters (js/room_list.js)

    The script keeps a module-level object [filters] with one tri-state
    entry per filter button (null: disabled, true: enabled, false:
    inverted), and on every click cycles one entry, restyles the clicked
    button and recomputes [style.display] of every room card.

    The embedding keeps the script's shape: the [filters] object is a finite
    map from property names to JavaScript values, the DOM is a store of
    elements addressed by reference, and the functions of the script are
    computations in a small state-and-exception monad (dereferencing a
    reference that denotes no element is JavaScript's TypeError on null). *)

From stdpp Require Import gmap strings list fin_maps.

Open Scope string_scope.

(** ** JavaScript values and objects *)

(** The values that can be read from a property of [filters]. *)
Inductive value : Type :=
  | VUndefined
  | VNull
  | VBool (b : bool).

#[global] Instance value_eq_dec : EqDecision value.
Proof. solve_decision. Defined.

(** [a === b]; on undefined, null and booleans strict equality is identity. *)
Definition strict_eq (a b : value) : bool := bool_decide (a = b).

(** [o[name]]: reading a property the object does not have gives undefined.
    The script indexes [filters] by the names of its three own properties
    only; properties inherited from the prototype are not modelled. *)
Definition get_prop (o : gmap string value) (name : string) : value :=
  default VUndefined (o !! name).

(** [o[name] = v]. *)
Definition set_prop (o : gmap string value) (name : string) (v : value)
  : gmap string value :=
  <[name := v]> o.

(** The part of a DOM element the script touches: [classList] is an ordered
    set of tokens, [dataset] maps the camel-cased names of the [data-*]
    attributes that are present to their string values, and [style_display]
    is [style.display]. *)
Record element : Type := Element {
  classList : list string;
  dataset : gmap string string;
  style_display : string;
}.

Definition with_classList (e : element) (cl : list string) : element :=
  {| classList := cl; dataset := dataset e; style_display := style_display e |}.

Definition with_display (e : element) (d : string) : element :=
  {| classList := classList e; dataset := dataset e; style_display := d |}.

(** [classList.remove(t1, ..., tn)]. *)
Definition classList_remove (tokens cl : list string) : list string :=
  filter (λ t, t ∉ tokens) cl.

(** [classList.add(t)]: a token already present is not added again. *)
Definition classList_add (t : string) (cl : list string) : list string :=
  if decide (t ∈ cl) then cl else cl ++ [t].

(** [card.dataset[key] === "true"]; an absent attribute reads as undefined,
    which is not strictly equal to any string. *)
Definition dataset_is_true (card : element) (key : string) : bool :=
  bool_decide (dataset card !! key = Some "true").

(** ** Program state and effects *)

(** References to elements are positions in the document. *)
Abbreviation ref := nat (only parsing).

Record state : Type := State {
  filters : gmap string value;
  document : list element;
}.

Inductive completion (A : Type) : Type :=
  | Normal (a : A)
  | TypeError.
Arguments Normal {A} a.
Arguments TypeError {A}.

(** A computation runs on a state and completes normally or abruptly; the
    effects performed before a throw stay in the state. *)
Definition js (A : Type) : Type := state → completion A * state.

#[global] Instance js_ret : MRet js := λ A a s, (Normal a, s).

#[global] Instance js_bind : MBind js := λ A B k m s,
  match m s with
  | (Normal a, s') => k a s'
  | (TypeError, s') => (TypeError, s')
  end.

Definition read_filter (name : string) : js value :=
  λ s, (Normal (get_prop (filters s) name), s).

Definition write_filter (name : string) (v : value) : js unit :=
  λ s, (Normal tt, {| filters := set_prop (filters s) name v;
                      document := document s |}).

(** Access through a reference; a reference to no element throws. *)
Definition deref (r : ref) : js element :=
  λ s, match document s !! r with
       | Some e => (Normal e, s)
       | None => (TypeError, s)
       end.

Definition store (r : ref) (e : element) : js unit :=
  λ s, (Normal tt, {| filters := filters s;
                      document := <[r := e]> (document s) |}).

(** [for (const x of xs) body(x)]. *)
Fixpoint for_of {A : Type} (xs : list A) (body : A → js unit) : js unit :=
  match xs with
  | [] => mret tt
  | x :: xs' => body x;; for_of xs' body
  end.

(** ** The script *)

(** [updateButtonStyles(btn, filter)] *)
Definition updateButtonStyles (btn : ref) (filter : value) : js unit :=
  (e ← deref btn;
   store btn (with_classList e (classList_remove ["active"; "inverted"] (classList e))));;
  (if strict_eq filter (VBool true)
   then e ← deref btn; store btn (with_classList e (classList_add "active" (classList e)))
   else mret tt);;
  (if strict_eq filter (VBool false)
   then e ← deref btn; store btn (with_classList e (classList_add "inverted" (classList e)))
   else mret tt).

(** [checkFilter(filter, value)] *)
Definition checkFilter (filter : value) (value : bool) : bool :=
  if strict_eq filter VNull then true else strict_eq filter (VBool value).

(** The expression bound to [showCard] in the body of [applyFilters]. *)
Definition showCard (fs : gmap string value) (card : element) : bool :=
  checkFilter (get_prop fs "direct") (dataset_is_true card "isDirect") &&
  checkFilter (get_prop fs "encrypted") (dataset_is_true card "isEncrypted") &&
  checkFilter (get_prop fs "unread") (dataset_is_true card "hasUnread").

(** [showCard ? "flex" : "none"] *)
Definition display_of (show : bool) : string :=
  if show then "flex" else "none".

Section Script.

(** The module-level constants obtained from the document when the script
    is loaded: the three buttons and the static list of room cards. *)
Variables directRoomsBtn encryptedRoomsBtn unreadRoomsBtn : ref.
Variable roomCards : list ref.

(** One iteration of the loop of [applyFilters]. *)
Definition applyFilters_body (card : ref) : js unit :=
  direct ← read_filter "direct";
  e ← deref card;
  encrypted ← read_filter "encrypted";
  unread ← read_filter "unread";
  let showCard :=
    checkFilter direct (dataset_is_true e "isDirect") &&
    checkFilter encrypted (dataset_is_true e "isEncrypted") &&
    checkFilter unread (dataset_is_true e "hasUnread") in
  store card (with_display e (display_of showCard)).

(** [applyFilters()] *)
Definition applyFilters : js unit :=
  for_of roomCards applyFilters_body.

(** [toggleFilter(filterName, btn)] *)
Definition toggleFilter (filterName : string) (btn : ref) : js unit :=
  (v ← read_filter filterName;
   if strict_eq v VNull then write_filter filterName (VBool true)
   else
     v ← read_filter filterName;
     if strict_eq v (VBool true) then write_filter filterName (VBool false)
     else write_filter filterName VNull);;
  (v ← read_filter filterName; updateButtonStyles btn v);;
  applyFilters.

(** The three click listeners. *)
Definition on_click_direct : js unit := toggleFilter "direct" directRoomsBtn.
Definition on_click_encrypted : js unit := toggleFilter "encrypted" encryptedRoomsBtn.
Definition on_click_unread : js unit := toggleFilter "unread" unreadRoomsBtn.

End Script.

(** The object literal the script starts from. *)
Definition initial_filters : gmap string value :=
  {[ "direct" := VNull; "encrypted" := VNull; "unread" := VNull ]}.

(** What one iteration of [applyFilters] leaves in a card. *)
Definition settle (fs : gmap string value) (card : element) : element :=
  with_display card (display_of (showCard fs card)).

(** The value the if-chain of [toggleFilter] writes over [v]. *)
Definition next_filter (v : value) : value :=
  if strict_eq v VNull then VBool true
  else if strict_eq v (VBool true) then VBool false
  else VNull.

(** The class list [updateButtonStyles] leaves in a button that had [cl]. *)
Definition styled (filter : value) (cl : list string) : list string :=
  let cl0 := classList_remove ["active"; "inverted"] cl in
  let cl1 := if strict_eq filter (VBool true) then classList_add "active" cl0 else cl0 in
  if strict_eq filter (VBool false) then classList_add "inverted" cl1 else cl1.

(** A filter state [st] admits a card whose tag is [tag]: the filter is
    disabled, or enabled on a tagged card, or inverted on an untagged one. *)
Definition admits (st : value) (tag : bool) : Prop :=
  st = VNull ∨ (st = VBool true ∧ tag = true) ∨ (st = VBool false ∧ tag = false).

(** The filter is unset, or the boolean it requires is the tag's value. *)
Definition unset_or_equal (st : value) (tag : bool) : Prop :=
  st = VNull ∨ st = VBool tag.

#[global] Instance unset_or_equal_dec (st : value) (tag : bool) :
  Decision (unset_or_equal st tag).
Proof. unfold unset_or_equal. apply _. Defined.

(** The three filters with the data attribute each one is compared to. *)
Definition dimensions : list (string * string) :=
  [("direct", "isDirect"); ("encrypted", "isEncrypted"); ("unread", "hasUnread")].

(** The element [e] with the data attribute [key] present and equal to [v]. *)
Definition with_data (e : element) (key v : string) : element :=
  {| classList := classList e;
     dataset := <[key := v]> (dataset e);
     style_display := style_display e |}.

(** The document of the two-card scenario: the three buttons, then a direct,
    unencrypted, unread room and a non-direct, encrypted, read room. *)
Definition scenario_button : element :=
  {| classList := []; dataset := ∅; style_display := EmptyString |}.

Definition scenario_card1 : element :=
  {| classList := ["room-card"];
     dataset := {[ "isDirect" := "true"; "isEncrypted" := "false"; "hasUnread" := "true" ]};
     style_display := EmptyString |}.

Definition scenario_card2 : element :=
  {| classList := ["room-card"];
     dataset := {[ "isDirect" := "false"; "isEncrypted" := "true"; "hasUnread" := "false" ]};
     style_display := EmptyString |}.

Definition scenario_A : state :=
  {| filters := initial_filters;
     document := [scenario_button; scenario_button; scenario_button;
                  scenario_card1; scenario_card2] |}.

(** One click on the first button. *)
Definition scenario_B : state :=
  (on_click_direct 0 [3; 4] scenario_A).2.

(** Then two clicks on the second button. *)
Definition scenario_C : state :=
  (on_click_encrypted 1 [3; 4] (on_click_encrypted 1 [3; 4] scenario_B).2).2.

(** ** Buttons, loading and clicks *)

(** The marker class a filter state is shown by, if any. *)
Definition marker (filter : value) : list string :=
  match filter with
  | VBool true => ["active"]
  | VBool false => ["inverted"]
  | _ => []
  end.

(** What [updateButtonStyles(btn, filter)] leaves in the button. *)
Definition restyle (filter : value) (btn : element) : element :=
  with_classList btn (styled filter (classList btn)).

(** What a completed [toggleFilter] leaves in the element at position [i]:
    the button is restyled for the new state [v], then every card is
    settled under the new filters [fs]. *)
Definition refreshed (cards : list ref) (btn : ref) (v : value)
    (fs : gmap string value) (i : ref) (e : element) : element :=
  let e1 := if decide (i = btn) then restyle v e else e in
  if decide (i ∈ cards) then settle fs e1 else e1.

(** [querySelectorAll("." + cls)] over a document whose first element has
    position [i]: the references, in document order, of the elements whose
    class list has the token [cls]. *)
Fixpoint querySelectorAll_class (cls : string) (i : ref) (doc : list element)
  : list ref :=
  match doc with
  | [] => []
  | e :: doc' =>
      if decide (cls ∈ classList e)
      then i :: querySelectorAll_class cls (S i) doc'
      else querySelectorAll_class cls (S i) doc'
  end.

(** The value of [document.querySelectorAll(".room-card")]. *)
Definition query_roomCards (doc : list element) : list ref :=
  querySelectorAll_class "room-card" 0 doc.

(** The click events the script listens to, one per button. *)
Inductive click : Type :=
  | ClickDirect
  | ClickEncrypted
  | ClickUnread.

#[global] Instance click_eq_dec : EqDecision click.
Proof. solve_decision. Defined.

(** The filter name the listener of a button passes to [toggleFilter]. *)
Definition click_filter (c : click) : string :=
  match c with
  | ClickDirect => "direct"
  | ClickEncrypted => "encrypted"
  | ClickUnread => "unread"
  end.

Section Listeners.

Variables directRoomsBtn encryptedRoomsBtn unreadRoomsBtn : ref.
Variable roomCards : list ref.

(** The listener registered for each click.  The three [addEventListener]
    calls run when the script is loaded and throw on a button that is no
    element, so the listeners all exist exactly when the three buttons are
    elements of the document; [listener] and [handle_clicks] describe the
    script from then on. *)
Definition listener (c : click) : js unit :=
  match c with
  | ClickDirect => on_click_direct directRoomsBtn roomCards
  | ClickEncrypted => on_click_encrypted encryptedRoomsBtn roomCards
  | ClickUnread => on_click_unread unreadRoomsBtn roomCards
  end.

(** The state after a sequence of clicks: each listener runs to completion
    on the state the previous one left; a listener that throws ends that
    event only. *)
Fixpoint handle_clicks (cs : list click) (s : state) : state :=
  match cs with
  | [] => s
  | c :: cs' => handle_clicks cs' (listener c s).2
  end.

End Listeners.

(** The states of a filter in the order of the toggle cycle. *)
Definition cycle_state (n : nat) : value :=
  match n mod 3 with
  | 0 => VNull
  | 1 => VBool true
  | _ => VBool false
  end.

(** Case analysis on a hypothesis [(d, tag) ∈ dimensions]. *)
Ltac dimension_cases H :=
  unfold dimensions in H; rewrite !elem_of_cons in H;
  destruct H as [H|[H|[H|H]]]; [..|by apply not_elem_of_nil in H];
  injection H as -> ->.

(** ** Running the loop of [applyFilters] *)

Lemma bind_run {A B : Type} (m : js A) (k : A → js B) (s : state) :
  (m ≫= k) s =
  match m s with
  | (Normal a, s') => k a s'
  | (TypeError, s') => (TypeError, s')
  end.
Proof. reflexivity. Qed.

Lemma applyFilters_body_run (card : ref) (s : state) :
  applyFilters_body card s =
  match document s !! card with
  | Some e => (Normal tt, State (filters s) (<[card := settle (filters s) e]> (document s)))
  | None => (TypeError, s)
  end.
Proof.
  unfold applyFilters_body, mbind, js_bind, read_filter, deref, store; simpl.
  destruct (document s !! card); reflexivity.
Qed.

Lemma applyFilters_cons (c : ref) (cs : list ref) (s : state) :
  applyFilters (c :: cs) s =
  match document s !! c with
  | Some e => applyFilters cs (State (filters s) (<[c := settle (filters s) e]> (document s)))
  | None => (TypeError, s)
  end.
Proof.
  unfold applyFilters; simpl. unfold mbind at 1, js_bind at 1.
  rewrite applyFilters_body_run.
  destruct (document s !! c); reflexivity.
Qed.

Lemma applyFilters_nil (s : state) : applyFilters [] s = (Normal tt, s).
Proof. reflexivity. Qed.

Lemma settle_settle (fs : gmap string value) (e : element) :
  settle fs (settle fs e) = settle fs e.
Proof. reflexivity. Qed.

Lemma applyFilters_filters (cards : list ref) (s : state) :
  filters (applyFilters cards s).2 = filters s.
Proof.
  revert s. induction cards as [|c cs IH]; intros s; [done|].
  rewrite applyFilters_cons.
  destruct (document s !! c); [|done]. by rewrite IH.
Qed.

Lemma applyFilters_length (cards : list ref) (s : state) :
  length (document (applyFilters cards s).2) = length (document s).
Proof.
  revert s. induction cards as [|c cs IH]; intros s; [done|].
  rewrite applyFilters_cons.
  destruct (document s !! c); [|done]. rewrite IH; simpl. apply length_insert.
Qed.

(** A card that already shows what the filters say is left as it is. *)
Lemma applyFilters_fixed (cards : list ref) (s : state) (i : ref) (e : element) :
  document s !! i = Some e →
  settle (filters s) e = e →
  document (applyFilters cards s).2 !! i = Some e.
Proof.
  revert s. induction cards as [|c cs IH]; intros s Hi He; [done|].
  rewrite applyFilters_cons.
  destruct (document s !! c) as [e0|] eqn:Hc; [|done].
  apply IH; simpl; [|done].
  destruct (decide (c = i)) as [->|Hne].
  - rewrite list_lookup_insert_eq by (by eapply lookup_lt_Some). congruence.
  - by rewrite list_lookup_insert_ne.
Qed.

(** The loop completes normally exactly when every card is an element. *)
Lemma applyFilters_normal (cards : list ref) (s : state) :
  (applyFilters cards s).1 = Normal tt ↔
  Forall (λ c, c < length (document s)) cards.
Proof.
  revert s. induction cards as [|c cs IH]; intros s.
  - split; [constructor|done].
  - rewrite applyFilters_cons, Forall_cons.
    destruct (document s !! c) as [e|] eqn:Hc.
    + rewrite IH; simpl. rewrite length_insert.
      apply lookup_lt_Some in Hc. tauto.
    + apply lookup_ge_None in Hc. simpl. split; [done|lia].
Qed.

(** When it does, every card, and nothing else, has been settled. *)
Lemma applyFilters_lookup (cards : list ref) (s : state) (i : ref) :
  Forall (λ c, c < length (document s)) cards →
  document (applyFilters cards s).2 !! i =
  if decide (i ∈ cards) then settle (filters s) <$> document s !! i
  else document s !! i.
Proof.
  revert s. induction cards as [|c cs IH]; intros s Hall.
  - by rewrite applyFilters_nil, decide_False by apply not_elem_of_nil.
  - apply Forall_cons in Hall as [Hc Hcs].
    rewrite applyFilters_cons.
    destruct (lookup_lt_is_Some_2 _ _ Hc) as [e He]. rewrite He.
    rewrite IH by (simpl; by rewrite length_insert). simpl.
    destruct (decide (i = c)) as [->|Hne].
    + rewrite list_lookup_insert_eq by done.
      rewrite (decide_True (P := c ∈ c :: cs)) by (apply elem_of_cons; by left).
      rewrite He. by destruct (decide (c ∈ cs)).
    + rewrite list_lookup_insert_ne by done.
      destruct (decide (i ∈ cs)) as [Hin|Hin].
      * by rewrite decide_True by (apply elem_of_cons; by right).
      * rewrite decide_False; [done|]. rewrite elem_of_cons. tauto.
Qed.

(** Whatever the outcome, an element keeps its classes and its data. *)
Lemma applyFilters_frame (cards : list ref) (s : state) (i : ref) (e' : element) :
  document (applyFilters cards s).2 !! i = Some e' →
  ∃ e, document s !! i = Some e ∧ classList e' = classList e ∧ dataset e' = dataset e.
Proof.
  revert s. induction cards as [|c cs IH]; intros s H; [by exists e'|].
  rewrite applyFilters_cons in H.
  destruct (document s !! c) as [e0|] eqn:Hc; [|by exists e'].
  apply IH in H as (e & He & Hcl & Hds); simpl in He.
  destruct (decide (c = i)) as [->|Hne].
  - rewrite list_lookup_insert_eq in He by (by eapply lookup_lt_Some).
    exists e0. split; [done|]. by simplify_eq.
  - rewrite list_lookup_insert_ne in He by done. by exists e.
Qed.

(** ** Running [updateButtonStyles] and [toggleFilter] *)

Lemma updateButtonStyles_run (btn : ref) (filter : value) (s : state) :
  updateButtonStyles btn filter s =
  match document s !! btn with
  | Some e =>
      (Normal tt,
       State (filters s) (<[btn := with_classList e (styled filter (classList e))]> (document s)))
  | None => (TypeError, s)
  end.
Proof.
  unfold updateButtonStyles, styled, mbind, js_bind, mret, js_ret, deref, store.
  destruct (document s !! btn) as [e|] eqn:He; simpl; [|done].
  assert (Hlt : btn < length (document s)) by (by eapply lookup_lt_Some).
  destruct (strict_eq filter (VBool true)), (strict_eq filter (VBool false)); simpl;
    repeat (rewrite ?list_lookup_insert_eq by (by rewrite ?length_insert);
            simpl; rewrite ?list_insert_insert_eq);
    reflexivity.
Qed.

Lemma toggleFilter_run (cards : list ref) (filterName : string) (btn : ref) (s : state) :
  toggleFilter cards filterName btn s =
  let v := next_filter (get_prop (filters s) filterName) in
  let fs := set_prop (filters s) filterName v in
  match document s !! btn with
  | Some e =>
      applyFilters cards
        (State fs (<[btn := with_classList e (styled v (classList e))]> (document s)))
  | None => (TypeError, State fs (document s))
  end.
Proof.
  unfold toggleFilter. rewrite bind_run.
  assert (Hw : (v ← read_filter filterName;
                if strict_eq v VNull then write_filter filterName (VBool true)
                else v0 ← read_filter filterName;
                     if strict_eq v0 (VBool true) then write_filter filterName (VBool false)
                     else write_filter filterName VNull) s =
               (Normal tt,
                State (set_prop (filters s) filterName (next_filter (get_prop (filters s) filterName)))
                      (document s))).
  { unfold mbind, js_bind, read_filter, write_filter, next_filter.
    destruct (strict_eq (get_prop (filters s) filterName) VNull); [done|].
    by destruct (strict_eq (get_prop (filters s) filterName) (VBool true)). }
  rewrite Hw; clear Hw.
  rewrite !bind_run. unfold read_filter; simpl.
  rewrite updateButtonStyles_run; simpl.
  unfold get_prop at 1 2, set_prop at 1 2. rewrite lookup_insert_eq; simpl.
  by destruct (document s !! btn).
Qed.

Lemma get_set_prop_eq (o : gmap string value) (name : string) (v : value) :
  get_prop (set_prop o name v) name = v.
Proof. unfold get_prop, set_prop. by rewrite lookup_insert_eq. Qed.

Lemma get_set_prop_ne (o : gmap string value) (name other : string) (v : value) :
  other ≠ name → get_prop (set_prop o name v) other = get_prop o other.
Proof. intros Hne. unfold get_prop, set_prop. by rewrite lookup_insert_ne. Qed.

Lemma toggleFilter_filters (cards : list ref) (filterName : string) (btn : ref) (s : state) :
  filters (toggleFilter cards filterName btn s).2 =
  set_prop (filters s) filterName (next_filter (get_prop (filters s) filterName)).
Proof.
  rewrite toggleFilter_run; simpl.
  destruct (document s !! btn); [|done]. by rewrite applyFilters_filters.
Qed.

Lemma checkFilter_admits (st : value) (tag : bool) :
  checkFilter st tag = true ↔ admits st tag.
Proof.
  unfold admits.
  destruct st as [| |[]], tag; vm_compute; split; intros H;
    try done; try (by left); try (by right; left); try (by right; right);
    destruct H as [?|[[??]|[??]]]; done.
Qed.

(** ** Visibility of a card *)

(** C1. For every card and every content of [filters], the visibility
    computed for the card ([showCard]) is true if and only if each of the
    three filters admits it: the filter is unset (null), or it is true and
    the card's corresponding tag is true, or it is false and the tag is
    false. *)
Theorem showCard_iff_admits (fs : gmap string value) (card : element) :
  showCard fs card = true ↔
  admits (get_prop fs "direct") (dataset_is_true card "isDirect") ∧
  admits (get_prop fs "encrypted") (dataset_is_true card "isEncrypted") ∧
  admits (get_prop fs "unread") (dataset_is_true card "hasUnread").
Proof.
  unfold showCard. rewrite !andb_true_iff, !checkFilter_admits. tauto.
Qed.

(** ** The toggle cycle *)

(** C2. One call of [toggleFilter] moves the named filter one step along
    null -> true -> false -> null, and three calls in a row bring each of
    the three states back to itself.  (A name that is no property of
    [filters] reads as undefined and enters the cycle at null.) *)
Theorem toggleFilter_cycle (cards : list ref) (filterName : string) (btn : ref) (s : state) :
  let toggle := λ s, (toggleFilter cards filterName btn s).2 in
  get_prop (filters (toggle s)) filterName =
    match get_prop (filters s) filterName with
    | VNull => VBool true
    | VBool true => VBool false
    | VBool false => VNull
    | VUndefined => VNull
    end ∧
  get_prop (filters (toggle (toggle (toggle s)))) filterName =
    match get_prop (filters s) filterName with
    | VUndefined => VBool false
    | v => v
    end.
Proof.
  cbv zeta beta. repeat (rewrite toggleFilter_filters || rewrite get_set_prop_eq).
  destruct (get_prop (filters s) filterName) as [| |[]]; split; reflexivity.
Qed.

(** C3. [toggleFilter] on one filter leaves every other property of
    [filters] as it was. *)
Theorem toggleFilter_other (cards : list ref) (filterName other : string) (btn : ref) (s : state) :
  other ≠ filterName →
  filters (toggleFilter cards filterName btn s).2 !! other = filters s !! other ∧
  get_prop (filters (toggleFilter cards filterName btn s).2) other = get_prop (filters s) other.
Proof.
  intros Hne. rewrite toggleFilter_filters.
  split; [by apply lookup_insert_ne | by apply get_set_prop_ne].
Qed.

Lemma toggleFilter_other_witness :
  "direct" ≠ "encrypted" ∧
  filters (toggleFilter [3; 4] "encrypted" 1 scenario_A).2 !! "direct" =
    filters scenario_A !! "direct" ∧
  get_prop (filters (toggleFilter [3; 4] "encrypted" 1 scenario_A).2) "direct" =
    get_prop (filters scenario_A) "direct".
Proof.
  split; [discriminate|].
  apply (toggleFilter_other [3; 4] "encrypted" "direct" 1 scenario_A). discriminate.
Defined.

(** ** Applying the filters *)

(** C4. Running [applyFilters] a second time, with no toggle in between,
    changes nothing: outcome and state (so the display of every card) are
    those of the first run. *)
Theorem applyFilters_idempotent (cards : list ref) (s : state) :
  applyFilters cards (applyFilters cards s).2 = applyFilters cards s.
Proof.
  revert s. induction cards as [|c cs IH]; intros s; [done|].
  rewrite (applyFilters_cons c cs s).
  destruct (document s !! c) as [e|] eqn:Hc; simpl.
  - set (s1 := State (filters s) (<[c:=settle (filters s) e]> (document s))).
    assert (Hfix : document (applyFilters cs s1).2 !! c = Some (settle (filters s) e)).
    { apply applyFilters_fixed; simpl; [|done].
      apply list_lookup_insert_eq. by eapply lookup_lt_Some. }
    rewrite applyFilters_cons, Hfix, applyFilters_filters; simpl.
    rewrite settle_settle, list_insert_id by done.
    rewrite <- (IH s1) at 2. f_equal.
    pose proof (applyFilters_filters cs s1) as Hfs.
    destruct (applyFilters cs s1).2 as [fs' doc']; simpl in *.
    by rewrite Hfs.
  - by rewrite applyFilters_cons, Hc.
Qed.

Lemma checkFilter_unset_or_equal (st : value) (tag : bool) :
  checkFilter st tag = bool_decide (unset_or_equal st tag).
Proof. by destruct st as [| |[]], tag. Qed.

Lemma showCard_unset_or_equal (fs : gmap string value) (card : element) :
  showCard fs card =
  bool_decide (unset_or_equal (get_prop fs "direct") (dataset_is_true card "isDirect")) &&
  bool_decide (unset_or_equal (get_prop fs "encrypted") (dataset_is_true card "isEncrypted")) &&
  bool_decide (unset_or_equal (get_prop fs "unread") (dataset_is_true card "hasUnread")).
Proof. unfold showCard. by rewrite !checkFilter_unset_or_equal. Qed.

(** [showCard] looks at the data of a card only. *)
Lemma showCard_dataset (fs : gmap string value) (e1 e2 : element) :
  dataset e1 = dataset e2 → showCard fs e1 = showCard fs e2.
Proof. intros H. unfold showCard, dataset_is_true. by rewrite H. Qed.

(** C5. After a toggle (button and cards being elements of the document)
    the call completes normally and every card's [style.display] is "flex"
    when the conjunction, over the three filters as they now are, of "the
    filter is unset or the boolean it requires equals the card's tag" is
    true, and "none" when it is false.  Every card of [roomCards] is
    rewritten, the tags are not touched, and no other element has its
    display changed. *)
Theorem toggleFilter_display (cards : list ref) (filterName : string) (btn : ref) (s : state) :
  btn < length (document s) →
  Forall (λ c, c < length (document s)) cards →
  let r := toggleFilter cards filterName btn s in
  r.1 = Normal tt ∧
  (∀ c, c ∈ cards →
     ∃ e0 e, document s !! c = Some e0 ∧ document r.2 !! c = Some e ∧
       dataset e = dataset e0 ∧
       style_display e =
         (if bool_decide (unset_or_equal (get_prop (filters r.2) "direct")
                                         (dataset_is_true e0 "isDirect")) &&
             bool_decide (unset_or_equal (get_prop (filters r.2) "encrypted")
                                         (dataset_is_true e0 "isEncrypted")) &&
             bool_decide (unset_or_equal (get_prop (filters r.2) "unread")
                                         (dataset_is_true e0 "hasUnread"))
          then "flex" else "none")) ∧
  (∀ i, i ∉ cards →
     style_display <$> document r.2 !! i = style_display <$> document s !! i).
Proof.
  intros Hbtn Hcards r. subst r.
  rewrite toggleFilter_filters, toggleFilter_run; simpl.
  destruct (lookup_lt_is_Some_2 _ _ Hbtn) as [b Hb]. rewrite Hb.
  set (fs := set_prop (filters s) filterName _).
  set (b' := with_classList b _).
  set (s2 := State fs (<[btn:=b']> (document s))).
  assert (Hcards2 : Forall (λ c, c < length (document s2)) cards).
  { simpl. by rewrite length_insert. }
  split; [by apply applyFilters_normal|]. split.
  - intros c Hc.
    rewrite applyFilters_lookup, decide_True by done.
    assert (Hlt : c < length (document s2)) by (by eapply Forall_forall in Hcards2).
    destruct (lookup_lt_is_Some_2 _ _ Hlt) as [e2 He2].
    assert (∃ e0, document s !! c = Some e0 ∧ dataset e2 = dataset e0 ∧
                  style_display e2 = style_display e0) as (e0 & He0 & Hds & _).
    { simpl in He2.
      apply list_lookup_insert_Some in He2 as [(-> & <- & _)|[Hne He2]];
        [by exists b | by exists e2]. }
    exists e0, (settle fs e2). rewrite He2. repeat split; [done..|].
    simpl. rewrite (showCard_dataset fs e2 e0), showCard_unset_or_equal by done.
    reflexivity.
  - intros i Hi.
    rewrite applyFilters_lookup, decide_False by done. simpl.
    destruct (decide (btn = i)) as [->|Hne].
    + rewrite list_lookup_insert_eq by done. by rewrite Hb.
    + by rewrite list_lookup_insert_ne.
Qed.

Lemma toggleFilter_display_witness :
  0 < length (document scenario_A) ∧
  Forall (λ c, c < length (document scenario_A)) [3; 4] ∧
  let r := toggleFilter [3; 4] "direct" 0 scenario_A in
  r.1 = Normal tt ∧
  (∀ c, c ∈ [3; 4] →
     ∃ e0 e, document scenario_A !! c = Some e0 ∧ document r.2 !! c = Some e ∧
       dataset e = dataset e0 ∧
       style_display e =
         (if bool_decide (unset_or_equal (get_prop (filters r.2) "direct")
                                         (dataset_is_true e0 "isDirect")) &&
             bool_decide (unset_or_equal (get_prop (filters r.2) "encrypted")
                                         (dataset_is_true e0 "isEncrypted")) &&
             bool_decide (unset_or_equal (get_prop (filters r.2) "unread")
                                         (dataset_is_true e0 "hasUnread"))
          then "flex" else "none")) ∧
  (∀ i, i ∉ [3; 4] →
     style_display <$> document r.2 !! i = style_display <$> document scenario_A !! i).
Proof.
  assert (H0 : 0 < length (document scenario_A)) by (simpl; lia).
  assert (H1 : Forall (λ c, c < length (document scenario_A)) [3; 4])
    by (repeat constructor; simpl; lia).
  split; [exact H0|]. split; [exact H1|].
  exact (toggleFilter_display [3; 4] "direct" 0 scenario_A H0 H1).
Defined.

(** ** Button styles *)

Lemma elem_of_styled (filter : value) (cl : list string) (t : string) :
  t ∈ styled filter cl ↔
  (t = "active" ∧ filter = VBool true) ∨
  (t = "inverted" ∧ filter = VBool false) ∨
  (t ≠ "active" ∧ t ≠ "inverted" ∧ t ∈ cl).
Proof.
  assert (Hrm : ∀ u, u ∈ classList_remove ["active"; "inverted"] cl ↔
                     u ≠ "active" ∧ u ≠ "inverted" ∧ u ∈ cl).
  { intros u. unfold classList_remove.
    rewrite list_elem_of_filter, !not_elem_of_cons.
    pose proof (not_elem_of_nil u). tauto. }
  unfold styled, classList_add.
  destruct filter as [| |[]]; simpl; repeat case_decide;
    repeat match goal with H : _ ∈ classList_remove _ _ |- _ => apply Hrm in H end;
    rewrite ?elem_of_app, ?list_elem_of_singleton, ?Hrm;
    intuition congruence.
Qed.

(** C9. When [toggleFilter] returns, the class list of the button it was
    given shows the new state of the filter and nothing else of the two
    markers: "active" is present exactly when the state is true, "inverted"
    exactly when it is false, neither when it is null, never both; the
    other classes of the button are kept. *)
Theorem toggleFilter_button (cards : list ref) (filterName : string) (btn : ref)
    (s : state) (b : element) :
  document s !! btn = Some b →
  let s' := (toggleFilter cards filterName btn s).2 in
  let v := get_prop (filters s') filterName in
  ∃ b', document s' !! btn = Some b' ∧
    (v = VNull ∨ v = VBool true ∨ v = VBool false) ∧
    ("active" ∈ classList b' ↔ v = VBool true) ∧
    ("inverted" ∈ classList b' ↔ v = VBool false) ∧
    (v = VNull → ("active" ∉ classList b') ∧ ("inverted" ∉ classList b')) ∧
    ¬ ("active" ∈ classList b' ∧ "inverted" ∈ classList b') ∧
    (∀ t, t ≠ "active" → t ≠ "inverted" → (t ∈ classList b' ↔ t ∈ classList b)).
Proof.
  intros Hb s' v. subst s' v.
  rewrite toggleFilter_filters, get_set_prop_eq, toggleFilter_run; simpl.
  rewrite Hb.
  set (v := next_filter (get_prop (filters s) filterName)).
  set (s2 := State _ _).
  assert (Hlt : btn < length (document s)) by (by eapply lookup_lt_Some).
  assert (Hb2 : document s2 !! btn = Some (with_classList b (styled v (classList b)))).
  { simpl. by apply list_lookup_insert_eq. }
  assert (Hlt' : btn < length (document (applyFilters cards s2).2)).
  { rewrite applyFilters_length. simpl. by rewrite length_insert. }
  destruct (lookup_lt_is_Some_2 _ _ Hlt') as [b' Hb'].
  destruct (applyFilters_frame _ _ _ _ Hb') as (b2 & Hb2' & Hcl & _).
  rewrite Hb2 in Hb2'. injection Hb2' as <-. simpl in Hcl.
  exists b'. split; [done|]. rewrite Hcl.
  assert (Hv : v = VNull ∨ v = VBool true ∨ v = VBool false).
  { subst v. unfold next_filter.
    destruct (get_prop (filters s) filterName) as [| |[]]; simpl; auto. }
  split; [done|].
  repeat split; try intros t ??; rewrite ?elem_of_styled;
    intuition congruence.
Qed.

Lemma toggleFilter_button_witness :
  document scenario_A !! 0 = Some scenario_button ∧
  let s' := (toggleFilter [3; 4] "direct" 0 scenario_A).2 in
  let v := get_prop (filters s') "direct" in
  ∃ b', document s' !! 0 = Some b' ∧
    (v = VNull ∨ v = VBool true ∨ v = VBool false) ∧
    ("active" ∈ classList b' ↔ v = VBool true) ∧
    ("inverted" ∈ classList b' ↔ v = VBool false) ∧
    (v = VNull → ("active" ∉ classList b') ∧ ("inverted" ∉ classList b')) ∧
    ¬ ("active" ∈ classList b' ∧ "inverted" ∈ classList b') ∧
    (∀ t, t ≠ "active" → t ≠ "inverted" →
          (t ∈ classList b' ↔ t ∈ classList scenario_button)).
Proof.
  split; [reflexivity|].
  exact (toggleFilter_button [3; 4] "direct" 0 scenario_A scenario_button eq_refl).
Defined.

(** ** Cards with missing or unexpected tags *)

Lemma dataset_is_true_iff (card : element) (key : string) :
  dataset_is_true card key = true ↔ dataset card !! key = Some "true".
Proof. unfold dataset_is_true. apply bool_decide_eq_true. Qed.

Lemma dataset_is_true_absent (card : element) (key : string) :
  dataset card !! key = None → dataset_is_true card key = false.
Proof.
  intros H. apply not_true_is_false. rewrite dataset_is_true_iff. congruence.
Qed.

Lemma dataset_is_true_with_data (card : element) (key v k : string) :
  dataset card !! key = None → v ≠ "true" →
  dataset_is_true (with_data card key v) k = dataset_is_true card k.
Proof.
  intros Habs Hv. unfold dataset_is_true. apply bool_decide_ext; simpl.
  destruct (decide (key = k)) as [->|Hne].
  - rewrite lookup_insert_eq, Habs. split; congruence.
  - by rewrite lookup_insert_ne.
Qed.

(** C6. A card that lacks the data attribute of a filter counts as not
    having the tag: the comparison gives false, so the card does not pass
    the filter when it is true (it is hidden), and passes it when it is
    false (that filter then constrains the card no more than an unset one).
    [applyFilters] completes normally on such a card. *)
Theorem missing_tag_is_false (cards : list ref) (s : state) (c : ref) (card : element)
    (d tag : string) :
  Forall (λ c, c < length (document s)) cards →
  c ∈ cards →
  document s !! c = Some card →
  (d, tag) ∈ dimensions →
  dataset card !! tag = None →
  dataset_is_true card tag = false ∧
  checkFilter (VBool true) (dataset_is_true card tag) = false ∧
  checkFilter (VBool false) (dataset_is_true card tag) = true ∧
  (applyFilters cards s).1 = Normal tt ∧
  (get_prop (filters s) d = VBool true →
     showCard (filters s) card = false ∧
     style_display <$> document (applyFilters cards s).2 !! c = Some "none") ∧
  (get_prop (filters s) d = VBool false →
     showCard (filters s) card = showCard (set_prop (filters s) d VNull) card).
Proof.
  intros Hcards Hc Hcard Hd Habs.
  pose proof (dataset_is_true_absent _ _ Habs) as Htag.
  rewrite Htag, applyFilters_lookup, decide_True, Hcard by done. simpl.
  assert (Hreq : get_prop (filters s) d = VBool true → showCard (filters s) card = false).
  { intros H. dimension_cases Hd; unfold showCard; rewrite H, Htag; simpl;
      by rewrite ?andb_false_r. }
  split; [done|]. split; [done|]. split; [done|].
  split; [by apply applyFilters_normal|]. split.
  - intros H. split; [by apply Hreq|]. by rewrite Hreq.
  - intros H. dimension_cases Hd; unfold showCard;
      rewrite get_set_prop_eq, !get_set_prop_ne, H, Htag by done; done.
Qed.

Lemma missing_tag_is_false_witness :
  let s := State (set_prop initial_filters "direct" (VBool true)) [scenario_button] in
  Forall (λ c, c < length (document s)) [0] ∧
  0 ∈ [0] ∧
  document s !! 0 = Some scenario_button ∧
  ("direct", "isDirect") ∈ dimensions ∧
  dataset scenario_button !! "isDirect" = None ∧
  dataset_is_true scenario_button "isDirect" = false ∧
  checkFilter (VBool true) (dataset_is_true scenario_button "isDirect") = false ∧
  checkFilter (VBool false) (dataset_is_true scenario_button "isDirect") = true ∧
  (applyFilters [0] s).1 = Normal tt ∧
  (get_prop (filters s) "direct" = VBool true →
     showCard (filters s) scenario_button = false ∧
     style_display <$> document (applyFilters [0] s).2 !! 0 = Some "none") ∧
  (get_prop (filters s) "direct" = VBool false →
     showCard (filters s) scenario_button =
     showCard (set_prop (filters s) "direct" VNull) scenario_button).
Proof.
  intros s.
  assert (H0 : Forall (λ c, c < length (document s)) [0])
    by (repeat constructor).
  assert (H1 : 0 ∈ [0]) by (by apply elem_of_cons; left).
  assert (H2 : ("direct", "isDirect") ∈ dimensions)
    by (by apply elem_of_cons; left).
  split; [exact H0|]. split; [exact H1|]. split; [reflexivity|].
  split; [exact H2|]. split; [reflexivity|].
  exact (missing_tag_is_false [0] s 0 scenario_button "direct" "isDirect"
           H0 H1 eq_refl H2 eq_refl).
Defined.

(** C10. The tag of a card is the comparison of its data attribute with
    the string "true": it is true exactly when the attribute is present and
    is that string.  A card without the attribute is therefore shown or
    hidden exactly like the same card with the attribute set to "false", or
    to any other string that is not "true". *)
Theorem absent_tag_like_false (fs : gmap string value) (card : element) (key v : string) :
  (dataset_is_true card key = true ↔ dataset card !! key = Some "true") ∧
  (dataset card !! key = None → v ≠ "true" →
     dataset_is_true (with_data card key v) key = false ∧
     dataset_is_true card key = false ∧
     showCard fs (with_data card key v) = showCard fs card).
Proof.
  split; [apply dataset_is_true_iff|]. intros Habs Hv.
  split; [|split].
  - rewrite dataset_is_true_with_data by done. by apply dataset_is_true_absent.
  - by apply dataset_is_true_absent.
  - unfold showCard. by rewrite !dataset_is_true_with_data.
Qed.

Lemma absent_tag_like_false_witness :
  dataset scenario_button !! "isDirect" = None ∧
  "false" ≠ "true" ∧
  dataset_is_true (with_data scenario_button "isDirect" "false") "isDirect" = false ∧
  dataset_is_true scenario_button "isDirect" = false ∧
  showCard initial_filters (with_data scenario_button "isDirect" "false") =
    showCard initial_filters scenario_button.
Proof.
  split; [reflexivity|]. split; [discriminate|].
  apply (absent_tag_like_false initial_filters scenario_button "isDirect" "false");
    [reflexivity|discriminate].
Defined.

(** ** Determinism and independence of the order of the cards *)

Lemma applyFilters_valid_run (cards : list ref) (s : state) :
  Forall (λ c, c < length (document s)) cards →
  applyFilters cards s =
  (Normal tt, State (filters s) (document (applyFilters cards s).2)).
Proof.
  intros Hcards.
  pose proof (proj2 (applyFilters_normal cards s) Hcards) as Hn.
  pose proof (applyFilters_filters cards s) as Hfs.
  destruct (applyFilters cards s) as [r [fs doc]]; simpl in *. by subst.
Qed.

Lemma applyFilters_card (cards : list ref) (s : state) (c : ref) (e : element) :
  Forall (λ c, c < length (document s)) cards →
  c ∈ cards →
  document s !! c = Some e →
  document (applyFilters cards s).2 !! c = Some (settle (filters s) e).
Proof.
  intros Hcards Hc He. by rewrite applyFilters_lookup, decide_True, He.
Qed.

Lemma applyFilters_Permutation (cards cards' : list ref) (s : state) :
  cards ≡ₚ cards' →
  Forall (λ c, c < length (document s)) cards →
  applyFilters cards' s = applyFilters cards s.
Proof.
  intros Hperm Hcards.
  assert (Hcards' : Forall (λ c, c < length (document s)) cards')
    by (by rewrite <- Hperm).
  rewrite (applyFilters_valid_run cards), (applyFilters_valid_run cards') by done.
  do 2 f_equal. apply list_eq; intros i.
  rewrite !applyFilters_lookup by done.
  destruct (decide (i ∈ cards)) as [Hi|Hi].
  - rewrite decide_True; [done|]. by rewrite <- Hperm.
  - rewrite decide_False; [done|]. by rewrite <- Hperm.
Qed.

Lemma showCard_tags (fs : gmap string value) (e1 e2 : element) :
  (∀ d tag, (d, tag) ∈ dimensions → dataset_is_true e1 tag = dataset_is_true e2 tag) →
  showCard fs e1 = showCard fs e2.
Proof.
  intros H. unfold showCard.
  rewrite (H "direct" "isDirect"), (H "encrypted" "isEncrypted"),
    (H "unread" "hasUnread"); [done|unfold dimensions; set_solver..].
Qed.

(** C8. The display [applyFilters] gives a card is a function of the
    filters and of the card's own three tags: two cards with the same tags,
    in any two documents and card lists, under the same filters, get the
    same display; and running the loop over any reordering of the cards
    gives the same outcome and the same state. *)
Theorem applyFilters_order_independent (cards1 cards2 cards1' : list ref)
    (s1 s2 : state) (c1 c2 : ref) (e1 e2 : element) :
  filters s1 = filters s2 →
  Forall (λ c, c < length (document s1)) cards1 →
  Forall (λ c, c < length (document s2)) cards2 →
  c1 ∈ cards1 → c2 ∈ cards2 →
  document s1 !! c1 = Some e1 → document s2 !! c2 = Some e2 →
  (∀ d tag, (d, tag) ∈ dimensions → dataset_is_true e1 tag = dataset_is_true e2 tag) →
  cards1 ≡ₚ cards1' →
  style_display <$> document (applyFilters cards1 s1).2 !! c1 =
    Some (display_of (showCard (filters s1) e1)) ∧
  style_display <$> document (applyFilters cards1 s1).2 !! c1 =
    style_display <$> document (applyFilters cards2 s2).2 !! c2 ∧
  applyFilters cards1' s1 = applyFilters cards1 s1.
Proof.
  intros Hfs Hv1 Hv2 Hc1 Hc2 He1 He2 Htags Hperm.
  rewrite (applyFilters_card cards1 s1 c1 e1), (applyFilters_card cards2 s2 c2 e2) by done.
  simpl. rewrite <- Hfs, (showCard_tags _ e1 e2) by done.
  repeat split. by apply applyFilters_Permutation.
Qed.

Lemma applyFilters_order_independent_witness :
  let s1 := scenario_A in
  let s2 := State initial_filters [with_data scenario_card1 "other" "x"] in
  filters s1 = filters s2 ∧
  Forall (λ c, c < length (document s1)) [3; 4] ∧
  Forall (λ c, c < length (document s2)) [0] ∧
  3 ∈ [3; 4] ∧ 0 ∈ [0] ∧
  document s1 !! 3 = Some scenario_card1 ∧
  document s2 !! 0 = Some (with_data scenario_card1 "other" "x") ∧
  [3; 4] ≡ₚ [4; 3] ∧
  style_display <$> document (applyFilters [3; 4] s1).2 !! 3 =
    Some (display_of (showCard (filters s1) scenario_card1)) ∧
  style_display <$> document (applyFilters [3; 4] s1).2 !! 3 =
    style_display <$> document (applyFilters [0] s2).2 !! 0 ∧
  applyFilters [4; 3] s1 = applyFilters [3; 4] s1.
Proof.
  intros s1 s2.
  assert (H1 : Forall (λ c, c < length (document s1)) [3; 4])
    by (repeat constructor; simpl; lia).
  assert (H2 : Forall (λ c, c < length (document s2)) [0])
    by (repeat constructor).
  assert (H3 : 3 ∈ [3; 4]) by (by apply elem_of_cons; left).
  assert (H4 : 0 ∈ [0]) by (by apply elem_of_cons; left).
  assert (H5 : [3; 4] ≡ₚ [4; 3]) by apply perm_swap.
  assert (H6 : ∀ d tag, (d, tag) ∈ dimensions →
            dataset_is_true scenario_card1 tag =
            dataset_is_true (with_data scenario_card1 "other" "x") tag).
  { intros d tag Hd. dimension_cases Hd; reflexivity. }
  split; [reflexivity|]. split; [exact H1|]. split; [exact H2|].
  split; [exact H3|]. split; [exact H4|]. split; [reflexivity|].
  split; [reflexivity|]. split; [exact H5|].
  exact (applyFilters_order_independent [3; 4] [0] [4; 3] s1 s2 3 0
           scenario_card1 (with_data scenario_card1 "other" "x")
           eq_refl H1 H2 H3 H4 eq_refl eq_refl H6 H5).
Defined.

(** ** The two-card scenario *)

(** C7. With the two cards of the scenario, after one click on the direct
    button (direct is true, the other two filters null) only the first card
    is shown; after two more clicks on the encrypted button (encrypted is
    false as well) the first card is still shown and the second hidden. *)
Theorem scenario_B_C :
  (get_prop (filters scenario_B) "direct" = VBool true ∧
   get_prop (filters scenario_B) "encrypted" = VNull ∧
   get_prop (filters scenario_B) "unread" = VNull ∧
   style_display <$> document scenario_B !! 3 = Some "flex" ∧
   style_display <$> document scenario_B !! 4 = Some "none") ∧
  (get_prop (filters scenario_C) "direct" = VBool true ∧
   get_prop (filters scenario_C) "encrypted" = VBool false ∧
   get_prop (filters scenario_C) "unread" = VNull ∧
   style_display <$> document scenario_C !! 3 = Some "flex" ∧
   style_display <$> document scenario_C !! 4 = Some "none").
Proof. vm_compute. repeat split. Qed.

(** ** More on [updateButtonStyles] *)

Lemma classList_remove_app (tokens l1 l2 : list string) :
  classList_remove tokens (l1 ++ l2) =
  (classList_remove tokens l1 ++ classList_remove tokens l2)%list.
Proof. apply filter_app. Qed.

Lemma classList_remove_idemp (tokens cl : list string) :
  classList_remove tokens (classList_remove tokens cl) = classList_remove tokens cl.
Proof.
  unfold classList_remove. induction cl as [|t cl IH]; [done|].
  rewrite (filter_cons _ t cl). case_decide; [|done].
  by rewrite filter_cons_True, IH.
Qed.

Lemma elem_of_classList_remove (tokens cl : list string) (t : string) :
  t ∈ classList_remove tokens cl ↔ (t ∉ tokens) ∧ (t ∈ cl).
Proof. unfold classList_remove. by rewrite list_elem_of_filter. Qed.

Lemma classList_remove_marker (filter : value) :
  classList_remove ["active"; "inverted"] (marker filter) = [].
Proof. by destruct filter as [| |[]]. Qed.

Lemma styled_marker (filter : value) (cl : list string) :
  styled filter cl = (classList_remove ["active"; "inverted"] cl ++ marker filter)%list.
Proof.
  assert (Ha : "active" ∉ classList_remove ["active"; "inverted"] cl).
  { rewrite elem_of_classList_remove. intros [H _]. apply H, elem_of_cons. by left. }
  assert (Hi : "inverted" ∉ classList_remove ["active"; "inverted"] cl).
  { rewrite elem_of_classList_remove. intros [H _].
    apply H, elem_of_cons. right. apply elem_of_cons. by left. }
  unfold styled, classList_add.
  destruct filter as [| |[]]; simpl; rewrite ?decide_False by done;
    by rewrite ?app_nil_r.
Qed.

Lemma styled_styled (v w : value) (cl : list string) :
  styled v (styled w cl) = styled v cl.
Proof.
  rewrite !styled_marker, classList_remove_app, classList_remove_idemp,
    classList_remove_marker. by rewrite app_nil_r.
Qed.

Lemma restyle_restyle (v w : value) (e : element) :
  restyle v (restyle w e) = restyle v e.
Proof. unfold restyle, with_classList; simpl. by rewrite styled_styled. Qed.

(** X1. On a button that is an element, [updateButtonStyles] completes
    normally and changes the class list of that button only: the classes
    other than "active" and "inverted" stay, in their order, and the marker
    of the filter state (none for null or undefined) comes last.  The
    filters, the data and display of the button and every other element are
    as before. *)
Theorem updateButtonStyles_classes (btn : ref) (filter : value) (s : state) (b : element) :
  document s !! btn = Some b →
  updateButtonStyles btn filter s =
  (Normal tt,
   {| filters := filters s;
      document :=
        <[btn := {| classList :=
                      (classList_remove ["active"; "inverted"] (classList b)
                       ++ marker filter)%list;
                    dataset := dataset b;
                    style_display := style_display b |}]> (document s) |}).
Proof.
  intros Hb. rewrite updateButtonStyles_run, Hb.
  unfold with_classList. by rewrite styled_marker.
Qed.

Lemma updateButtonStyles_classes_witness :
  document scenario_A !! 1 = Some scenario_button ∧
  updateButtonStyles 1 (VBool false) scenario_A =
  (Normal tt,
   {| filters := filters scenario_A;
      document :=
        <[1 := {| classList :=
                    (classList_remove ["active"; "inverted"] (classList scenario_button)
                     ++ marker (VBool false))%list;
                  dataset := dataset scenario_button;
                  style_display := style_display scenario_button |}]>
          (document scenario_A) |}).
Proof.
  split; [reflexivity|].
  exact (updateButtonStyles_classes 1 (VBool false) scenario_A scenario_button eq_refl).
Defined.

(** X2. The last call wins: [updateButtonStyles(btn, v)] after
    [updateButtonStyles(btn, w)] gives the outcome and the state of
    [updateButtonStyles(btn, v)] alone (in particular the function is
    idempotent), whether or not the button is an element. *)
Theorem updateButtonStyles_absorbs (btn : ref) (v w : value) (s : state) :
  updateButtonStyles btn v (updateButtonStyles btn w s).2 = updateButtonStyles btn v s.
Proof.
  rewrite (updateButtonStyles_run btn w s).
  destruct (document s !! btn) as [b|] eqn:Hb; simpl; [|done].
  rewrite !updateButtonStyles_run, Hb; simpl.
  rewrite list_lookup_insert_eq by (by eapply lookup_lt_Some).
  rewrite list_insert_insert_eq.
  unfold with_classList; simpl. by rewrite styled_styled.
Qed.

(** ** More on [toggleFilter] *)

Lemma settle_absorb (fs fs' : gmap string value) (e : element) :
  settle fs (settle fs' e) = settle fs e.
Proof. reflexivity. Qed.

Lemma settle_restyle (fs : gmap string value) (v : value) (e : element) :
  settle fs (restyle v e) = restyle v (settle fs e).
Proof. reflexivity. Qed.

Lemma refreshed_absorb (cards : list ref) (btn : ref) (v v' : value)
    (fs fs' : gmap string value) (i : ref) (e : element) :
  refreshed cards btn v' fs' i (refreshed cards btn v fs i e) =
  refreshed cards btn v' fs' i e.
Proof.
  unfold refreshed.
  destruct (decide (i = btn)), (decide (i ∈ cards));
    by rewrite ?settle_restyle, ?settle_absorb, ?restyle_restyle.
Qed.

(** A toggle with button and cards in the document, in closed form. *)
Lemma toggleFilter_valid_run (cards : list ref) (filterName : string) (btn : ref) (s : state) :
  btn < length (document s) →
  Forall (λ c, c < length (document s)) cards →
  let v := next_filter (get_prop (filters s) filterName) in
  let fs := set_prop (filters s) filterName v in
  toggleFilter cards filterName btn s =
  (Normal tt, State fs (imap (refreshed cards btn v fs) (document s))).
Proof.
  intros Hbtn Hcards v fs. rewrite toggleFilter_run; simpl.
  destruct (lookup_lt_is_Some_2 _ _ Hbtn) as [b Hb]. rewrite Hb.
  fold v fs. fold (restyle v b).
  set (s2 := State fs (<[btn:=restyle v b]> (document s))).
  assert (Hcards2 : Forall (λ c, c < length (document s2)) cards)
    by (simpl; by rewrite length_insert).
  rewrite applyFilters_valid_run by done. simpl. do 2 f_equal.
  apply list_eq; intros i.
  rewrite applyFilters_lookup, list_lookup_imap by done. simpl.
  unfold refreshed.
  destruct (decide (i = btn)) as [->|Hne].
  - rewrite list_lookup_insert_eq, Hb by done. simpl. by destruct (decide (btn ∈ cards)).
  - rewrite list_lookup_insert_ne by done.
    destruct (document s !! i); simpl; by destruct (decide (i ∈ cards)).
Qed.

Lemma set_prop_set_prop (o : gmap string value) (name : string) (v w : value) :
  set_prop (set_prop o name v) name w = set_prop o name w.
Proof. apply insert_insert_eq. Qed.

Lemma next_filter_moves (v : value) : next_filter v ≠ v.
Proof. by destruct v as [| |[]]. Qed.

Lemma next_filter_period (v : value) :
  next_filter (next_filter (next_filter (next_filter v))) = next_filter v.
Proof. by destruct v as [| |[]]. Qed.

(** A toggle on a state that an earlier toggle of the same filter and
    button produced from [s]: the earlier refresh is overwritten. *)
Lemma toggleFilter_again (cards : list ref) (filterName : string) (btn : ref)
    (s : state) (v : value) :
  btn < length (document s) →
  Forall (λ c, c < length (document s)) cards →
  let fs := set_prop (filters s) filterName v in
  let v' := next_filter v in
  let fs' := set_prop (filters s) filterName v' in
  toggleFilter cards filterName btn
    (State fs (imap (refreshed cards btn v fs) (document s))) =
  (Normal tt, State fs' (imap (refreshed cards btn v' fs') (document s))).
Proof.
  intros Hbtn Hcards fs v' fs'.
  rewrite toggleFilter_valid_run; cbn [filters document];
    rewrite ?length_imap; [|done..].
  subst fs. rewrite get_set_prop_eq, set_prop_set_prop. fold v' fs'.
  do 2 f_equal. apply list_eq; intros i.
  rewrite !list_lookup_imap.
  destruct (document s !! i); simpl; [|done]. by rewrite refreshed_absorb.
Qed.

(** X3. Clicking a button has period three on the whole state: with the
    button and the cards in the document, a fourth [toggleFilter] of the
    same filter gives the outcome and the state (filters, classes and
    displays) of the first. *)
Theorem toggleFilter_period (cards : list ref) (filterName : string) (btn : ref) (s : state) :
  btn < length (document s) →
  Forall (λ c, c < length (document s)) cards →
  let toggle := λ s, (toggleFilter cards filterName btn s).2 in
  toggleFilter cards filterName btn (toggle (toggle (toggle s))) =
  toggleFilter cards filterName btn s.
Proof.
  intros Hbtn Hcards. cbv zeta beta.
  rewrite (toggleFilter_valid_run cards filterName btn s) by done.
  cbv zeta. cbn [snd].
  do 3 (rewrite toggleFilter_again by done; cbn [snd]).
  by rewrite next_filter_period.
Qed.

Lemma toggleFilter_period_witness :
  0 < length (document scenario_A) ∧
  Forall (λ c, c < length (document scenario_A)) [3; 4] ∧
  let toggle := λ s, (toggleFilter [3; 4] "direct" 0 s).2 in
  toggleFilter [3; 4] "direct" 0 (toggle (toggle (toggle scenario_A))) =
  toggleFilter [3; 4] "direct" 0 scenario_A.
Proof.
  assert (H0 : 0 < length (document scenario_A)) by (simpl; lia).
  assert (H1 : Forall (λ c, c < length (document scenario_A)) [3; 4])
    by (repeat constructor; simpl; lia).
  split; [exact H0|]. split; [exact H1|].
  exact (toggleFilter_period [3; 4] "direct" 0 scenario_A H0 H1).
Defined.

(** X4. On a null button [toggleFilter] throws after it has written the
    filter: the filter has moved to its next state, but no class and no
    display has changed, so the cards no longer show what the filters
    say until the next completed toggle. *)
Theorem toggleFilter_null_button (cards : list ref) (filterName : string) (btn : ref)
    (s : state) :
  document s !! btn = None →
  let r := toggleFilter cards filterName btn s in
  r.1 = TypeError ∧
  document r.2 = document s ∧
  filters r.2 = set_prop (filters s) filterName (next_filter (get_prop (filters s) filterName)) ∧
  get_prop (filters r.2) filterName ≠ get_prop (filters s) filterName.
Proof.
  intros Hb r. subst r. rewrite toggleFilter_run, Hb; simpl.
  repeat split. rewrite get_set_prop_eq. apply next_filter_moves.
Qed.

Lemma toggleFilter_null_button_witness :
  document scenario_A !! 9 = None ∧
  let r := toggleFilter [3; 4] "direct" 9 scenario_A in
  r.1 = TypeError ∧
  document r.2 = document scenario_A ∧
  filters r.2 = set_prop (filters scenario_A) "direct"
                  (next_filter (get_prop (filters scenario_A) "direct")) ∧
  get_prop (filters r.2) "direct" ≠ get_prop (filters scenario_A) "direct".
Proof.
  split; [reflexivity|].
  exact (toggleFilter_null_button [3; 4] "direct" 9 scenario_A eq_refl).
Defined.

(** X5. Clicks on two different buttons commute: toggling two different
    filters, each with its own button, gives the same outcome and state in
    either order (buttons and cards in the document). *)
Theorem toggleFilter_commute (cards : list ref) (name1 name2 : string) (btn1 btn2 : ref)
    (s : state) :
  name1 ≠ name2 →
  btn1 ≠ btn2 →
  btn1 < length (document s) →
  btn2 < length (document s) →
  Forall (λ c, c < length (document s)) cards →
  toggleFilter cards name2 btn2 (toggleFilter cards name1 btn1 s).2 =
  toggleFilter cards name1 btn1 (toggleFilter cards name2 btn2 s).2.
Proof.
  intros Hname Hbtn H1 H2 Hcards.
  rewrite (toggleFilter_valid_run cards name1 btn1 s),
    (toggleFilter_valid_run cards name2 btn2 s) by done.
  cbv zeta. cbn [snd].
  rewrite !toggleFilter_valid_run; cbn [filters document];
    rewrite ?length_imap; [|done..].
  cbv zeta. rewrite !get_set_prop_ne by done.
  set (v1 := next_filter (get_prop (filters s) name1)).
  set (v2 := next_filter (get_prop (filters s) name2)).
  assert (Hfs : set_prop (set_prop (filters s) name1 v1) name2 v2 =
                set_prop (set_prop (filters s) name2 v2) name1 v1)
    by (by apply insert_insert_ne).
  rewrite Hfs. do 2 f_equal. apply list_eq; intros i.
  rewrite !list_lookup_imap.
  destruct (document s !! i) as [e|]; simpl; [|done]. f_equal.
  unfold refreshed.
  destruct (decide (i = btn1)), (decide (i = btn2)), (decide (i ∈ cards));
    try congruence;
    by rewrite ?settle_restyle, ?settle_absorb.
Qed.

Lemma toggleFilter_commute_witness :
  "direct" ≠ "encrypted" ∧ 0 ≠ 1 ∧
  0 < length (document scenario_A) ∧ 1 < length (document scenario_A) ∧
  Forall (λ c, c < length (document scenario_A)) [3; 4] ∧
  toggleFilter [3; 4] "encrypted" 1 (toggleFilter [3; 4] "direct" 0 scenario_A).2 =
  toggleFilter [3; 4] "direct" 0 (toggleFilter [3; 4] "encrypted" 1 scenario_A).2.
Proof.
  assert (Hn : "direct" ≠ "encrypted") by discriminate.
  assert (Hb : 0 ≠ 1) by lia.
  assert (H0 : 0 < length (document scenario_A)) by (simpl; lia).
  assert (H1 : 1 < length (document scenario_A)) by (simpl; lia).
  assert (Hc : Forall (λ c, c < length (document scenario_A)) [3; 4])
    by (repeat constructor; simpl; lia).
  split; [exact Hn|]. split; [exact Hb|]. split; [exact H0|].
  split; [exact H1|]. split; [exact Hc|].
  exact (toggleFilter_commute [3; 4] "direct" "encrypted" 0 1 scenario_A Hn Hb H0 H1 Hc).
Defined.

(** X6. Whatever its outcome, [toggleFilter] keeps the number of elements,
    and every element is still there with the data attributes it had and,
    unless it is the button the call was given, the class list it had. *)
Theorem toggleFilter_frame (cards : list ref) (filterName : string) (btn : ref)
    (s : state) :
  length (document (toggleFilter cards filterName btn s).2) = length (document s) ∧
  ∀ i e, document s !! i = Some e →
    ∃ e', document (toggleFilter cards filterName btn s).2 !! i = Some e' ∧
          dataset e' = dataset e ∧
          (i ≠ btn → classList e' = classList e).
Proof.
  assert (Hlen : length (document (toggleFilter cards filterName btn s).2) =
                 length (document s)).
  { rewrite toggleFilter_run; simpl.
    destruct (document s !! btn); simpl; [|done].
    rewrite applyFilters_length; simpl. apply length_insert. }
  split; [exact Hlen|]. intros i e He.
  assert (Hlt : i < length (document (toggleFilter cards filterName btn s).2)).
  { rewrite Hlen. by eapply lookup_lt_Some. }
  destruct (lookup_lt_is_Some_2 _ _ Hlt) as [e' He']. exists e'. split; [done|].
  rewrite toggleFilter_run in He'; simpl in He'.
  destruct (document s !! btn) as [b|] eqn:Hb; simpl in He'.
  - apply applyFilters_frame in He' as (e2 & He2 & Hcl & Hds); simpl in He2.
    apply list_lookup_insert_Some in He2 as [(-> & <- & _)|[Hne He2]].
    + simplify_eq. by rewrite Hds.
    + simplify_eq. by rewrite Hcl, Hds.
  - by simplify_eq.
Qed.

Lemma toggleFilter_frame_witness :
  length (document (toggleFilter [3; 4] "direct" 0 scenario_A).2) =
    length (document scenario_A) ∧
  document scenario_A !! 3 = Some scenario_card1 ∧
  ∃ e', document (toggleFilter [3; 4] "direct" 0 scenario_A).2 !! 3 = Some e' ∧
        dataset e' = dataset scenario_card1 ∧
        (3 ≠ 0 → classList e' = classList scenario_card1).
Proof.
  split; [|split; [reflexivity|]].
  - exact (proj1 (toggleFilter_frame [3; 4] "direct" 0 scenario_A)).
  - exact (proj2 (toggleFilter_frame [3; 4] "direct" 0 scenario_A)
             3 scenario_card1 eq_refl).
Defined.

Lemma NoDup_styled (v : value) (cl : list string) :
  NoDup cl → NoDup (styled v cl).
Proof.
  intros Hcl. rewrite styled_marker. apply NoDup_app. split; [|split].
  - by apply NoDup_filter.
  - intros t Ht Hm. apply elem_of_classList_remove in Ht as [Ht _].
    apply Ht. destruct v as [| |[]]; simpl in Hm;
      [by apply not_elem_of_nil in Hm..| |];
      apply list_elem_of_singleton in Hm as ->; rewrite !elem_of_cons; auto.
  - destruct v as [| |[]]; simpl; auto using NoDup_nil_2, NoDup_singleton.
Qed.

(** X7. Class lists stay sets: if no element of the document has a
    repeated class, none has after [toggleFilter], whatever its outcome. *)
Theorem toggleFilter_NoDup (cards : list ref) (filterName : string) (btn : ref) (s : state) :
  Forall (λ e, NoDup (classList e)) (document s) →
  Forall (λ e, NoDup (classList e)) (document (toggleFilter cards filterName btn s).2).
Proof.
  intros Hs. rewrite toggleFilter_run; simpl.
  destruct (document s !! btn) as [b|] eqn:Hb; simpl; [|done].
  apply Forall_lookup_2. intros i e' He'.
  apply applyFilters_frame in He' as (e2 & He2 & Hcl & _); simpl in He2.
  rewrite Hcl.
  apply list_lookup_insert_Some in He2 as [(-> & <- & _)|[Hne He2]]; simpl.
  - apply NoDup_styled. by eapply (Forall_lookup_1 _ _ _ _ Hs).
  - by eapply (Forall_lookup_1 _ _ _ _ Hs).
Qed.

Lemma toggleFilter_NoDup_witness :
  Forall (λ e, NoDup (classList e)) (document scenario_A) ∧
  Forall (λ e, NoDup (classList e))
    (document (toggleFilter [3; 4] "direct" 0 scenario_A).2).
Proof.
  assert (H : Forall (λ e, NoDup (classList e)) (document scenario_A)).
  { cbn. repeat first [apply Forall_cons_2 | apply Forall_nil_2
                        | apply NoDup_nil_2 | apply NoDup_singleton]. }
  split; [exact H|].
  exact (toggleFilter_NoDup [3; 4] "direct" 0 scenario_A H).
Defined.

(** ** More on [applyFilters] *)

Lemma applyFilters_app (cards1 cards2 : list ref) (s : state) :
  applyFilters (cards1 ++ cards2) s =
  match applyFilters cards1 s with
  | (Normal _, s') => applyFilters cards2 s'
  | (TypeError, s') => (TypeError, s')
  end.
Proof.
  revert s. induction cards1 as [|c cs IH]; intros s; [done|].
  rewrite <- app_comm_cons, !applyFilters_cons.
  destruct (document s !! c); [apply IH|done].
Qed.

(** X8. The loop of [applyFilters] stops at the first card that is no
    element: it throws, the cards before it have been settled, and the
    cards after it are not visited (the state is the one left by the loop
    over the cards before). *)
Theorem applyFilters_stops (cards1 cards2 : list ref) (c : ref) (s : state) :
  Forall (λ c, c < length (document s)) cards1 →
  (length (document s) ≤ c)%nat →
  applyFilters (cards1 ++ c :: cards2) s = (TypeError, (applyFilters cards1 s).2).
Proof.
  intros Hcards Hc.
  rewrite applyFilters_app, (applyFilters_valid_run cards1 s) by done.
  rewrite applyFilters_cons. cbn [snd document].
  rewrite (proj2 (lookup_ge_None _ _)); [done|].
  change (length (document (applyFilters cards1 s).2) ≤ c)%nat.
  by rewrite applyFilters_length.
Qed.

Lemma applyFilters_stops_witness :
  Forall (λ c, c < length (document scenario_A)) [3] ∧
  (length (document scenario_A) ≤ 8)%nat ∧
  applyFilters ([3] ++ 8 :: [4]) scenario_A =
  (TypeError, (applyFilters [3] scenario_A).2).
Proof.
  assert (H0 : Forall (λ c, c < length (document scenario_A)) [3])
    by (repeat constructor; simpl; lia).
  assert (H1 : (length (document scenario_A) ≤ 8)%nat) by (simpl; lia).
  split; [exact H0|]. split; [exact H1|].
  exact (applyFilters_stops [3] [4] 8 scenario_A H0 H1).
Defined.

(** X9. With the three filters null, as when the script starts,
    [applyFilters] shows every card, whatever its tags. *)
Theorem applyFilters_unset_shows_all (cards : list ref) (s : state) (c : ref) :
  get_prop (filters s) "direct" = VNull →
  get_prop (filters s) "encrypted" = VNull →
  get_prop (filters s) "unread" = VNull →
  Forall (λ c, c < length (document s)) cards →
  c ∈ cards →
  style_display <$> document (applyFilters cards s).2 !! c = Some "flex".
Proof.
  intros Hd He Hu Hcards Hc.
  assert (Hlt : c < length (document s)) by (by eapply Forall_forall in Hcards).
  destruct (lookup_lt_is_Some_2 _ _ Hlt) as [e Hlook].
  rewrite (applyFilters_card cards s c e) by done. simpl.
  unfold showCard. by rewrite Hd, He, Hu.
Qed.

Lemma applyFilters_unset_shows_all_witness :
  get_prop (filters scenario_A) "direct" = VNull ∧
  get_prop (filters scenario_A) "encrypted" = VNull ∧
  get_prop (filters scenario_A) "unread" = VNull ∧
  Forall (λ c, c < length (document scenario_A)) [3; 4] ∧
  4 ∈ [3; 4] ∧
  style_display <$> document (applyFilters [3; 4] scenario_A).2 !! 4 = Some "flex".
Proof.
  assert (H0 : Forall (λ c, c < length (document scenario_A)) [3; 4])
    by (repeat constructor; simpl; lia).
  assert (H1 : 4 ∈ [3; 4]) by (rewrite !elem_of_cons; auto).
  repeat (split; [reflexivity|]). split; [exact H0|]. split; [exact H1|].
  exact (applyFilters_unset_shows_all [3; 4] scenario_A 4 eq_refl eq_refl eq_refl H0 H1).
Defined.

(** X10. A filter property that is missing from [filters] (it reads as
    undefined, which is neither null nor a boolean) admits no card:
    [applyFilters] then hides every card, whatever its tags and whatever
    the other two filters are. *)
Theorem applyFilters_undefined_hides_all (cards : list ref) (s : state) (c : ref)
    (d tag : string) :
  (d, tag) ∈ dimensions →
  filters s !! d = None →
  Forall (λ c, c < length (document s)) cards →
  c ∈ cards →
  style_display <$> document (applyFilters cards s).2 !! c = Some "none".
Proof.
  intros Hd Hmiss Hcards Hc.
  assert (Hlt : c < length (document s)) by (by eapply Forall_forall in Hcards).
  destruct (lookup_lt_is_Some_2 _ _ Hlt) as [e Hlook].
  rewrite (applyFilters_card cards s c e) by done. simpl.
  assert (Hu : get_prop (filters s) d = VUndefined)
    by (unfold get_prop; by rewrite Hmiss).
  dimension_cases Hd; unfold showCard; rewrite Hu; simpl;
    by rewrite ?andb_false_r.
Qed.

Lemma applyFilters_undefined_hides_all_witness :
  let s := State (delete "unread" initial_filters) (document scenario_A) in
  ("unread", "hasUnread") ∈ dimensions ∧
  filters s !! "unread" = None ∧
  Forall (λ c, c < length (document s)) [3; 4] ∧
  3 ∈ [3; 4] ∧
  style_display <$> document (applyFilters [3; 4] s).2 !! 3 = Some "none".
Proof.
  intros s.
  assert (H0 : ("unread", "hasUnread") ∈ dimensions)
    by (unfold dimensions; rewrite !elem_of_cons; auto).
  assert (H1 : Forall (λ c, c < length (document s)) [3; 4])
    by (repeat constructor; simpl; lia).
  assert (H2 : 3 ∈ [3; 4]) by (rewrite !elem_of_cons; auto).
  split; [exact H0|]. split; [reflexivity|]. split; [exact H1|]. split; [exact H2|].
  exact (applyFilters_undefined_hides_all [3; 4] s 3 "unread" "hasUnread"
           H0 eq_refl H1 H2).
Defined.

Lemma checkFilter_set_mono (fs : gmap string value) (d k : string) (v : value) (t : bool) :
  get_prop fs d = VNull →
  checkFilter (get_prop (set_prop fs d v) k) t = true →
  checkFilter (get_prop fs k) t = true.
Proof.
  intros Hnull. destruct (decide (k = d)) as [->|Hne].
  - by rewrite Hnull.
  - by rewrite get_set_prop_ne.
Qed.

(** X11. Setting a filter that was null can only hide cards: a card shown
    after the filter is given any value was shown before. *)
Theorem showCard_monotone (fs : gmap string value) (d : string) (v : value) (card : element) :
  get_prop fs d = VNull →
  showCard (set_prop fs d v) card = true →
  showCard fs card = true.
Proof.
  intros Hnull. unfold showCard. rewrite !andb_true_iff.
  intros [[H1 H2] H3].
  repeat split; by eapply checkFilter_set_mono.
Qed.

Lemma showCard_monotone_witness :
  get_prop initial_filters "direct" = VNull ∧
  showCard (set_prop initial_filters "direct" (VBool true)) scenario_card1 = true ∧
  showCard initial_filters scenario_card1 = true.
Proof.
  split; [reflexivity|]. split; [reflexivity|].
  exact (showCard_monotone initial_filters "direct" (VBool true) scenario_card1
           eq_refl eq_refl).
Defined.

(** X12. With the other two filters null, the inverted filter shows
    exactly the cards the enabled filter hides. *)
Theorem showCard_inverted_complement (fs : gmap string value) (d tag : string)
    (card : element) :
  (d, tag) ∈ dimensions →
  (∀ d' tag', (d', tag') ∈ dimensions → d' ≠ d → get_prop fs d' = VNull) →
  showCard (set_prop fs d (VBool false)) card =
  negb (showCard (set_prop fs d (VBool true)) card).
Proof.
  intros Hd Hothers.
  assert (Hdir : "direct" ≠ d → get_prop fs "direct" = VNull).
  { apply (Hothers "direct" "isDirect"). unfold dimensions. rewrite !elem_of_cons. auto. }
  assert (Henc : "encrypted" ≠ d → get_prop fs "encrypted" = VNull).
  { apply (Hothers "encrypted" "isEncrypted"). unfold dimensions. rewrite !elem_of_cons. auto. }
  assert (Hunr : "unread" ≠ d → get_prop fs "unread" = VNull).
  { apply (Hothers "unread" "hasUnread"). unfold dimensions. rewrite !elem_of_cons. auto. }
  dimension_cases Hd; unfold showCard;
    rewrite !get_set_prop_eq, !get_set_prop_ne, ?Hdir, ?Henc, ?Hunr by done;
    simpl; rewrite ?andb_true_r;
    match goal with |- context [dataset_is_true ?c ?k] => by destruct (dataset_is_true c k) end.
Qed.

Lemma showCard_inverted_complement_witness :
  ("encrypted", "isEncrypted") ∈ dimensions ∧
  showCard (set_prop initial_filters "encrypted" (VBool false)) scenario_card2 =
  negb (showCard (set_prop initial_filters "encrypted" (VBool true)) scenario_card2).
Proof.
  assert (H0 : ("encrypted", "isEncrypted") ∈ dimensions)
    by (unfold dimensions; rewrite !elem_of_cons; auto).
  assert (H1 : ∀ d' tag', (d', tag') ∈ dimensions → d' ≠ "encrypted" →
               get_prop initial_filters d' = VNull).
  { intros d' tag' Hd Hne. dimension_cases Hd; done. }
  split; [exact H0|].
  exact (showCard_inverted_complement initial_filters "encrypted" "isEncrypted"
           scenario_card2 H0 H1).
Defined.

(** ** The cards found when the script is loaded *)

Lemma elem_of_querySelectorAll_class (cls : string) (i : ref) (doc : list element) (c : ref) :
  c ∈ querySelectorAll_class cls i doc ↔
  (i ≤ c)%nat ∧ ∃ e, doc !! (c - i) = Some e ∧ cls ∈ classList e.
Proof.
  revert i. induction doc as [|e doc IH]; intros i; simpl.
  - split; [by intros ?%not_elem_of_nil | by intros (_ & ? & ? & _)].
  - assert (Hrest : c ∈ querySelectorAll_class cls (S i) doc ↔
                    i < c ∧ ∃ e', (e :: doc) !! (c - i) = Some e' ∧ cls ∈ classList e').
    { rewrite IH. split.
      - intros (Hle & e' & He' & Hcls). split; [lia|]. exists e'. split; [|done].
        replace (c - i) with (S (c - S i)) by lia. done.
      - intros (Hlt & e' & He' & Hcls). split; [lia|]. exists e'. split; [|done].
        replace (c - i) with (S (c - S i)) in He' by lia. done. }
    destruct (decide (cls ∈ classList e)) as [Hin|Hnin].
    + rewrite elem_of_cons, Hrest. split.
      * intros [->|(Hlt & He')]; [|split; [lia|done]].
        split; [lia|]. exists e. by rewrite Nat.sub_diag.
      * intros (Hle & He'). destruct (decide (c = i)) as [->|Hne]; [by left|].
        right. split; [lia|done].
    + rewrite Hrest. split.
      * intros (Hlt & He'). split; [lia|done].
      * intros (Hle & e' & He' & Hcls). split; [|by exists e'].
        destruct (decide (c = i)) as [->|Hne]; [|lia].
        rewrite Nat.sub_diag in He'. simpl in He'. by simplify_eq.
Qed.

Lemma elem_of_query_roomCards (doc : list element) (c : ref) :
  c ∈ query_roomCards doc ↔ ∃ e, doc !! c = Some e ∧ "room-card" ∈ classList e.
Proof.
  unfold query_roomCards. rewrite elem_of_querySelectorAll_class, Nat.sub_0_r.
  split; [by intros [_ ?] | intros ?; split; [lia|done]].
Qed.

(** X13. Over the cards that [querySelectorAll(".room-card")] finds in the
    document, [applyFilters] never throws, and it settles the display of
    exactly the elements of class "room-card": every such element gets
    "flex" or "none" by its own tags, every other element is untouched. *)
Theorem applyFilters_query_roomCards (s : state) :
  applyFilters (query_roomCards (document s)) s =
  (Normal tt,
   {| filters := filters s;
      document :=
        (λ e, if decide ("room-card" ∈ classList e)
              then with_display e (display_of (showCard (filters s) e))
              else e) <$> document s |}).
Proof.
  assert (Hvalid : Forall (λ c, c < length (document s)) (query_roomCards (document s))).
  { apply Forall_forall. intros c (e & He & _)%elem_of_query_roomCards.
    by eapply lookup_lt_Some. }
  rewrite applyFilters_valid_run by done. do 2 f_equal.
  apply list_eq; intros i.
  rewrite applyFilters_lookup, list_lookup_fmap by done.
  destruct (document s !! i) as [e|] eqn:He; simpl.
  - destruct (decide ("room-card" ∈ classList e)) as [Hin|Hnin].
    + rewrite decide_True; [done|]. apply elem_of_query_roomCards. by exists e.
    + rewrite decide_False; [done|].
      intros (e' & He' & Hin)%elem_of_query_roomCards. by simplify_eq.
  - by destruct (decide (i ∈ query_roomCards (document s))).
Qed.

Lemma querySelectorAll_class_ext (cls : string) (i : ref) (doc doc' : list element) :
  Forall2 (λ e e', cls ∈ classList e ↔ cls ∈ classList e') doc doc' →
  querySelectorAll_class cls i doc = querySelectorAll_class cls i doc'.
Proof.
  intros H. revert i. induction H as [|e e' doc doc' He _ IH]; intros i; [done|].
  simpl. rewrite (IH (S i)).
  destruct (decide (cls ∈ classList e)), (decide (cls ∈ classList e')); tauto.
Qed.

Lemma toggleFilter_length (cards : list ref) (filterName : string) (btn : ref) (s : state) :
  length (document (toggleFilter cards filterName btn s).2) = length (document s).
Proof.
  rewrite toggleFilter_run; simpl.
  destruct (document s !! btn); simpl; [|done].
  rewrite applyFilters_length; simpl. apply length_insert.
Qed.

Lemma toggleFilter_classes (cards : list ref) (filterName : string) (btn : ref)
    (s : state) (i : ref) (e e' : element) (t : string) :
  document s !! i = Some e →
  document (toggleFilter cards filterName btn s).2 !! i = Some e' →
  t ≠ "active" → t ≠ "inverted" →
  t ∈ classList e' ↔ t ∈ classList e.
Proof.
  intros He He' Ha Hi. rewrite toggleFilter_run in He'; simpl in He'.
  destruct (document s !! btn) as [b|] eqn:Hb; simpl in He'; [|by simplify_eq].
  apply applyFilters_frame in He' as (e2 & He2 & -> & _); simpl in He2.
  apply list_lookup_insert_Some in He2 as [(-> & <- & _)|[Hne He2]]; simpl.
  - simplify_eq. rewrite elem_of_styled. intuition congruence.
  - by simplify_eq.
Qed.

Lemma toggleFilter_query_roomCards (cards : list ref) (filterName : string) (btn : ref)
    (s : state) :
  query_roomCards (document (toggleFilter cards filterName btn s).2) =
  query_roomCards (document s).
Proof.
  apply querySelectorAll_class_ext, Forall2_same_length_lookup_2.
  - apply toggleFilter_length.
  - intros i e' e He' He. by eapply toggleFilter_classes.
Qed.

(** X14. The list of cards taken once when the script is loaded never goes
    stale: after any sequence of clicks, with whatever buttons and card
    list, [querySelectorAll(".room-card")] on the document still returns
    what it returned before. *)
Theorem handle_clicks_query_roomCards (directRoomsBtn encryptedRoomsBtn unreadRoomsBtn : ref)
    (roomCards : list ref) (cs : list click) (s : state) :
  query_roomCards
    (document (handle_clicks directRoomsBtn encryptedRoomsBtn unreadRoomsBtn roomCards cs s)) =
  query_roomCards (document s).
Proof.
  revert s. induction cs as [|c cs IH]; intros s; [done|].
  simpl. rewrite IH. destruct c; apply toggleFilter_query_roomCards.
Qed.

(** ** Counting clicks *)

Lemma click_filter_inj (c k : click) : click_filter c = click_filter k → c = k.
Proof. by destruct c, k. Qed.

Lemma listener_filters (directRoomsBtn encryptedRoomsBtn unreadRoomsBtn : ref)
    (roomCards : list ref) (c : click) (s : state) :
  filters (listener directRoomsBtn encryptedRoomsBtn unreadRoomsBtn roomCards c s).2 =
  set_prop (filters s) (click_filter c)
    (next_filter (get_prop (filters s) (click_filter c))).
Proof. destruct c; apply toggleFilter_filters. Qed.

Lemma cycle_state_succ (n : nat) :
  cycle_state (S n) = next_filter (cycle_state n).
Proof.
  unfold cycle_state.
  pose proof (Nat.mod_upper_bound n 3 ltac:(lia)) as Hlt.
  pose proof (Nat.div_mod_eq n 3) as Hn.
  destruct (n mod 3) as [|[|[|r]]] eqn:Hr; [| | |lia].
  - replace (S n) with (1 + (n / 3) * 3) by lia. by rewrite Nat.Div0.mod_add.
  - replace (S n) with (2 + (n / 3) * 3) by lia. by rewrite Nat.Div0.mod_add.
  - replace (S n) with (0 + (S (n / 3)) * 3) by lia. by rewrite Nat.Div0.mod_add.
Qed.

Lemma iter_next_filter (n : nat) :
  Nat.iter n next_filter VNull = cycle_state n.
Proof.
  induction n as [|n IH]; [done|].
  by rewrite Nat.iter_succ, IH, cycle_state_succ.
Qed.

(** X15. Once the three listeners are registered, that is, when the three
    buttons are elements of the document, the state of a filter after any
    sequence of clicks depends only on how often its own button was
    clicked: it is the state it had, advanced that many times; started from
    the script's initial filters it is null, true or false according to
    that number modulo 3, and [filters] still has its three properties and
    no other. *)
Theorem handle_clicks_filters (directRoomsBtn encryptedRoomsBtn unreadRoomsBtn : ref)
    (roomCards : list ref) (cs : list click) (s : state) (k : click) :
  directRoomsBtn < length (document s) →
  encryptedRoomsBtn < length (document s) →
  unreadRoomsBtn < length (document s) →
  let s' := handle_clicks directRoomsBtn encryptedRoomsBtn unreadRoomsBtn roomCards cs s in
  get_prop (filters s') (click_filter k) =
    Nat.iter (count_occ click_eq_dec cs k) next_filter
      (get_prop (filters s) (click_filter k)) ∧
  (filters s = initial_filters →
     get_prop (filters s') (click_filter k) = cycle_state (count_occ click_eq_dec cs k) ∧
     dom (filters s') = {["direct"; "encrypted"; "unread"]}).
Proof.
  intros _ _ _. cbv zeta.
  assert (Hget : ∀ cs s,
    get_prop (filters (handle_clicks directRoomsBtn encryptedRoomsBtn unreadRoomsBtn
                         roomCards cs s)) (click_filter k) =
    Nat.iter (count_occ click_eq_dec cs k) next_filter
      (get_prop (filters s) (click_filter k))).
  { clear cs s. induction cs as [|c cs IH]; intros s; [done|].
    cbn [handle_clicks]. rewrite IH, listener_filters.
    destruct (decide (c = k)) as [->|Hne].
    - rewrite count_occ_cons_eq, get_set_prop_eq by done.
      by rewrite Nat.iter_succ_r.
    - rewrite count_occ_cons_neq, get_set_prop_ne; [done| |done].
      intros Heq. by apply Hne, click_filter_inj. }
  assert (Hdom : ∀ cs s, dom (filters s) = {["direct"; "encrypted"; "unread"]} →
    dom (filters (handle_clicks directRoomsBtn encryptedRoomsBtn unreadRoomsBtn
                    roomCards cs s)) = {["direct"; "encrypted"; "unread"]}).
  { clear cs s Hget. induction cs as [|c cs IH]; intros s Hs; [done|].
    cbn [handle_clicks]. apply IH. rewrite listener_filters.
    unfold set_prop. rewrite dom_insert_L, Hs. destruct c; set_solver. }
  split; [apply Hget|]. intros Hinit. split.
  - rewrite Hget, Hinit.
    replace (get_prop initial_filters (click_filter k)) with VNull by (by destruct k).
    apply iter_next_filter.
  - apply Hdom. rewrite Hinit. unfold initial_filters.
    rewrite !dom_insert_L, dom_singleton_L. set_solver.
Qed.

Lemma handle_clicks_filters_witness :
  0 < length (document scenario_A) ∧
  1 < length (document scenario_A) ∧
  2 < length (document scenario_A) ∧
  filters scenario_A = initial_filters ∧
  let s' := handle_clicks 0 1 2 [3; 4]
              [ClickDirect; ClickUnread; ClickDirect; ClickDirect; ClickDirect] scenario_A in
  get_prop (filters s') (click_filter ClickDirect) =
    Nat.iter (count_occ click_eq_dec
                [ClickDirect; ClickUnread; ClickDirect; ClickDirect; ClickDirect] ClickDirect)
      next_filter (get_prop (filters scenario_A) (click_filter ClickDirect)) ∧
  get_prop (filters s') (click_filter ClickDirect) =
    cycle_state (count_occ click_eq_dec
                   [ClickDirect; ClickUnread; ClickDirect; ClickDirect; ClickDirect]
                   ClickDirect) ∧
  dom (filters s') = {["direct"; "encrypted"; "unread"]}.
Proof.
  assert (H0 : 0 < length (document scenario_A)) by (simpl; lia).
  assert (H1 : 1 < length (document scenario_A)) by (simpl; lia).
  assert (H2 : 2 < length (document scenario_A)) by (simpl; lia).
  split; [exact H0|]. split; [exact H1|]. split; [exact H2|]. split; [reflexivity|].
  intros s'.
  destruct (handle_clicks_filters 0 1 2 [3; 4]
              [ClickDirect; ClickUnread; ClickDirect; ClickDirect; ClickDirect]
              scenario_A ClickDirect H0 H1 H2) as [Hiter Hinit].
  split; [exact Hiter|]. exact (Hinit eq_refl).
Defined.

(** ** The script as loaded *)

Lemma query_roomCards_valid (doc : list element) :
  Forall (λ c, c < length doc) (query_roomCards doc).
Proof.
  apply Forall_forall. intros c (e & He & _)%elem_of_query_roomCards.
  by eapply lookup_lt_Some.
Qed.

Lemma handle_clicks_loaded (directRoomsBtn encryptedRoomsBtn unreadRoomsBtn : ref)
    (roomCards : list ref) (cs : list click) (s : state) :
  let s' := handle_clicks directRoomsBtn encryptedRoomsBtn unreadRoomsBtn roomCards cs s in
  length (document s') = length (document s) ∧
  query_roomCards (document s') = query_roomCards (document s).
Proof.
  revert s. induction cs as [|c cs IH]; intros s; [done|].
  cbn [handle_clicks]. destruct (IH (listener directRoomsBtn encryptedRoomsBtn
                                       unreadRoomsBtn roomCards c s).2) as [-> ->].
  destruct c; split; first [apply toggleFilter_length | apply toggleFilter_query_roomCards].
Qed.

(** X16. Once the script is loaded on a document that has the three
    buttons, with [roomCards] the elements of class "room-card", no click
    ever throws, and after every click each element of class "room-card"
    has the display ("flex" or "none") that the current filters give its
    tags. *)
Theorem loaded_script_click (directRoomsBtn encryptedRoomsBtn unreadRoomsBtn : ref)
    (s : state) (cs : list click) (c : click) :
  directRoomsBtn < length (document s) →
  encryptedRoomsBtn < length (document s) →
  unreadRoomsBtn < length (document s) →
  let roomCards := query_roomCards (document s) in
  let s0 := handle_clicks directRoomsBtn encryptedRoomsBtn unreadRoomsBtn roomCards cs s in
  let r := listener directRoomsBtn encryptedRoomsBtn unreadRoomsBtn roomCards c s0 in
  r.1 = Normal tt ∧
  ∀ i e, document r.2 !! i = Some e → "room-card" ∈ classList e →
         style_display e = display_of (showCard (filters r.2) e).
Proof.
  intros Hd He Hu roomCards s0 r.
  destruct (handle_clicks_loaded directRoomsBtn encryptedRoomsBtn unreadRoomsBtn
              roomCards cs s) as [Hlen Hq]. fold s0 in Hlen, Hq.
  assert (Hcards : Forall (λ c, c < length (document s0)) roomCards).
  { unfold roomCards. rewrite <- Hq. apply query_roomCards_valid. }
  assert (Hrun : ∀ name btn, btn < length (document s) →
    let v := next_filter (get_prop (filters s0) name) in
    let fs := set_prop (filters s0) name v in
    (toggleFilter roomCards name btn s0).1 = Normal tt ∧
    ∀ i e, document (toggleFilter roomCards name btn s0).2 !! i = Some e →
           "room-card" ∈ classList e →
           style_display e =
           display_of (showCard (filters (toggleFilter roomCards name btn s0).2) e)).
  { intros name btn Hbtn v fs.
    rewrite toggleFilter_valid_run;
      [|rewrite Hlen; exact Hbtn|exact Hcards]. fold v fs.
    split; [done|]. cbn [snd filters document]. intros i e Hi Hcls.
    rewrite list_lookup_imap in Hi.
    destruct (document s0 !! i) as [e0|] eqn:He0; [|done].
    injection Hi as <-.
    assert (Hin : i ∈ roomCards).
    { unfold roomCards. rewrite <- Hq. apply elem_of_query_roomCards.
      exists e0. split; [done|].
      revert Hcls. unfold refreshed.
      destruct (decide (i = btn)), (decide (i ∈ roomCards)); simpl;
        rewrite ?elem_of_styled; intuition congruence. }
    unfold refreshed. by rewrite (decide_True (P := i ∈ roomCards)). }
  subst r. destruct c; simpl; by apply Hrun.
Qed.

Lemma loaded_script_click_witness :
  0 < length (document scenario_A) ∧
  1 < length (document scenario_A) ∧
  2 < length (document scenario_A) ∧
  let roomCards := query_roomCards (document scenario_A) in
  let s0 := handle_clicks 0 1 2 roomCards [ClickDirect; ClickEncrypted] scenario_A in
  let r := listener 0 1 2 roomCards ClickEncrypted s0 in
  r.1 = Normal tt ∧
  ∀ i e, document r.2 !! i = Some e → "room-card" ∈ classList e →
         style_display e = display_of (showCard (filters r.2) e).
Proof.
  assert (H0 : 0 < length (document scenario_A)) by (simpl; lia).
  assert (H1 : 1 < length (document scenario_A)) by (simpl; lia).
  assert (H2 : 2 < length (document scenario_A)) by (simpl; lia).
  split; [exact H0|]. split; [exact H1|]. split; [exact H2|].
  exact (loaded_script_click 0 1 2 scenario_A [ClickDirect; ClickEncrypted]
           ClickEncrypted H0 H1 H2).
Defined.
